(** * The work-order wrapper of the trusted worker manager

    A shallow embedding of
    [tc/sgx/trusted_worker_manager/enclave_wrapper/work_order_wrap.cpp]
    together with the collaborators its two calls rely on: the pool of
    ready enclaves, the work-order processor and the store of staged
    responses.

    The wrapper itself is embedded from the C++ source.  It is written in a
    small monad for the two effects the source has: the state of the
    collaborators, which every call may change, and C++ exceptions, which
    [ThrowTCFError] raises and which unwind the scope of the local
    [ReadyEnclave] object.  The collaborators are not part of the sources at
    hand; the wrapper is first studied for arbitrary collaborators and then
    linked against a model of them that follows the specification. *)

From Stdlib Require Import NArith ZArith String List Lia.
From stdpp Require Import base option list relations functions gmap strings.

Local Open Scope string_scope.

(** ** Status codes *)

(** Modelled from the spec: [tcf_error.h] is not among the sources.  The
    specification fixes the taxonomy of failures and asks only that success
    and failure-with-reason be distinguishable. *)
Inductive Error : Type :=
| PoolExhausted
| InvalidHandle
| ComputationError (status : Z)
| UnknownResponse
| SizeMismatch.

Inductive tcf_err_t : Type :=
| TCF_SUCCESS
| TCF_ERR (reason : Error).

#[global] Instance Error_eq_dec : EqDecision Error.
Proof. solve_decision. Defined.

#[global] Instance tcf_err_t_eq_dec : EqDecision tcf_err_t.
Proof. solve_decision. Defined.

(** ** The types the wrapper handles *)

(** [uint32_t] and [size_t] values are natural numbers.  The wrapper does
    no arithmetic on them, it only moves them from one call to the next,
    so no wrap-around is involved. *)
Definition uint32_t := N.
Definition size_t := N.

(** Modelled from the spec: [types.h] is not among the sources; the encoded
    response is a text-safe string. *)
Definition Base64EncodedString := string.

(** Modelled from the spec: the declaration of
    [tcf::enclave_queue::ReadyEnclave] is not among the sources.  An object
    of this class stands for one acquisition of an enclave instance; all
    the wrapper reads of it is its index. *)
Record ReadyEnclave : Type := mkReadyEnclave { getIndex : N }.

#[global] Instance ReadyEnclave_eq_dec : EqDecision ReadyEnclave.
Proof. solve_decision. Defined.

(** ** Effects: collaborator state, a log of calls, exceptions *)

Inductive Outcome (A : Type) : Type :=
| Return (a : A)
| Throw (e : Error).
Arguments Return {A} a.
Arguments Throw {A} e.

(** The calls that leave the wrapper, with the arguments they carry.  The
    log is ghost state: nothing in the program reads it. *)
Inductive Call : Type :=
| CallGetReadyEnclave
| CallHandleWorkOrderRequest
    (sealed_signup_data serialized_request : string) (enclave_index : N)
| CallGetSerializedResponse
    (sealed_signup_data : string) (response_identifier : uint32_t)
    (response_size : size_t) (enclave_index : N)
| CallDestroyReadyEnclave (enclave_index : N).

#[global] Instance Call_eq_dec : EqDecision Call.
Proof. solve_decision. Defined.

Definition is_destroy (c : Call) : bool :=
  match c with CallDestroyReadyEnclave _ => true | _ => false end.

Definition is_acquire (c : Call) : bool :=
  match c with CallGetReadyEnclave => true | _ => false end.

Definition is_fetch (c : Call) : bool :=
  match c with CallGetSerializedResponse _ _ _ _ => true | _ => false end.

(** The functions of other translation units the wrapper calls, over a
    state [W] of their own.  The two out-parameters of the submit call are
    uninitialised when it is entered, and the response string of the fetch
    call is empty, so the callee can only write them: the written values
    are part of the result.  Destructors do not throw. *)
Record Collaborators (W : Type) : Type := {
  base_GetReadyEnclave : W -> Outcome ReadyEnclave * W;
  ReadyEnclave_destroy : ReadyEnclave -> W -> W;
  workorder_HandleWorkOrderRequest :
    string -> string -> N -> W -> Outcome (tcf_err_t * uint32_t * size_t) * W;
  workorder_GetSerializedResponse :
    string -> uint32_t -> size_t -> N ->
    W -> Outcome (tcf_err_t * Base64EncodedString) * W
}.
Arguments base_GetReadyEnclave {W} _ _.
Arguments ReadyEnclave_destroy {W} _ _ _.
Arguments workorder_HandleWorkOrderRequest {W} _ _ _ _ _.
Arguments workorder_GetSerializedResponse {W} _ _ _ _ _ _.

Record Process (W : Type) : Type := mkProcess {
  world : W;
  calls : list Call
}.
Arguments mkProcess {W} _ _.
Arguments world {W} _.
Arguments calls {W} _.

Definition M (W A : Type) : Type := Process W -> Outcome A * Process W.

Section Effects.
Context {W : Type}.

Definition ret {A} (a : A) : M W A := fun p => (Return a, p).

Definition throw {A} (e : Error) : M W A := fun p => (Throw e, p).

Definition bind {A B} (m : M W A) (k : A -> M W B) : M W B :=
  fun p =>
    match m p with
    | (Return a, p') => k a p'
    | (Throw e, p') => (Throw e, p')
    end.

(** A call into another translation unit: logged, then run on the
    collaborators' state. *)
Definition extern {A} (c : Call) (f : W -> Outcome A * W) : M W A :=
  fun p =>
    let '(r, w') := f (world p) in
    (r, mkProcess w' (calls p ++ [c])).

(** A local object with automatic storage: [T obj = ctor; body].  When
    the constructor throws there is no object.  Otherwise the destructor
    runs when control leaves the scope, by [return] or by an exception
    that unwinds it, after the value returned has been built. *)
Definition automatic {T A}
    (ctor : M W T) (dtor : T -> Process W -> Process W)
    (body : T -> M W A) : M W A :=
  fun p =>
    match ctor p with
    | (Throw e, p') => (Throw e, p')
    | (Return obj, p') =>
        let '(r, p'') := body obj p' in (r, dtor obj p'')
    end.
End Effects.

Declare Scope cxx_scope.
Delimit Scope cxx_scope with cxx.
Notation "'call' pat <- m ;; k" :=
  (bind m (fun x => match x with pat => k end))
  (at level 10, pat pattern, m at level 99, k at level 200,
   format "'[v' 'call'  pat  <-  m  ;; '/' k ']'")
  : cxx_scope.
Notation "m ;; k" := (bind m (fun _ => k))
  (at level 100, right associativity) : cxx_scope.

(** ** The wrapper *)

Section Wrapper.
Context {W : Type} (env : Collaborators W).

Local Open Scope cxx_scope.

Definition GetReadyEnclave : M W ReadyEnclave :=
  extern CallGetReadyEnclave (base_GetReadyEnclave env).

Definition DestroyReadyEnclave (readyEnclave : ReadyEnclave)
    (p : Process W) : Process W :=
  mkProcess (ReadyEnclave_destroy env readyEnclave (world p))
            (calls p ++ [CallDestroyReadyEnclave (getIndex readyEnclave)]).

Definition workorder_submit
    (sealed_signup_data serialized_request : string) (enclave_index : N)
    : M W (tcf_err_t * uint32_t * size_t) :=
  extern
    (CallHandleWorkOrderRequest sealed_signup_data serialized_request
       enclave_index)
    (workorder_HandleWorkOrderRequest env sealed_signup_data
       serialized_request enclave_index).

Definition workorder_fetch
    (sealed_signup_data : string) (response_identifier : uint32_t)
    (response_size : size_t) (enclave_index : N)
    : M W (tcf_err_t * Base64EncodedString) :=
  extern
    (CallGetSerializedResponse sealed_signup_data response_identifier
       response_size enclave_index)
    (workorder_GetSerializedResponse env sealed_signup_data
       response_identifier response_size enclave_index).

(** Modelled from the spec: [swig_utils.h] is not among the sources.
    [ThrowTCFError] turns a status code into the caller's error
    convention: nothing happens on success, any other code is thrown. *)
Definition ThrowTCFError (presult : tcf_err_t) : M W unit :=
  match presult with
  | TCF_SUCCESS => ret tt
  | TCF_ERR reason => throw reason
  end.

(** [work_order_wrap.cpp], lines 31 to 58: the [handle_work_order] of the
    specification.  [readyEnclave] lives until the function is left;
    [response_identifier] and [response_size] are written by the submit
    call and read by the fetch call. *)
Definition HandleWorkOrderRequest
    (sealed_signup_data serialized_request : string)
    : M W Base64EncodedString :=
  automatic GetReadyEnclave DestroyReadyEnclave (fun readyEnclave =>
    call (presult, response_identifier, response_size) <-
      workorder_submit sealed_signup_data serialized_request
        (getIndex readyEnclave) ;;
    ThrowTCFError presult ;;
    call (presult, response) <-
      workorder_fetch sealed_signup_data response_identifier response_size
        (getIndex readyEnclave) ;;
    ThrowTCFError presult ;;
    ret response).

(** One run on a fresh log: what the caller gets, the state the
    collaborators are left in, and the calls made, in order. *)
Definition outcome_of (sealed_signup_data serialized_request : string)
    (w : W) : Outcome Base64EncodedString :=
  fst (HandleWorkOrderRequest sealed_signup_data serialized_request
         (mkProcess w [])).

Definition state_after (sealed_signup_data serialized_request : string)
    (w : W) : W :=
  world (snd (HandleWorkOrderRequest sealed_signup_data serialized_request
                (mkProcess w []))).

Definition calls_of (sealed_signup_data serialized_request : string)
    (w : W) : list Call :=
  calls (snd (HandleWorkOrderRequest sealed_signup_data serialized_request
                (mkProcess w []))).

(** The same collaborators behind a recoding of the two buffers. *)
Definition recode (f g : string -> string) : Collaborators W := {|
  base_GetReadyEnclave := base_GetReadyEnclave env;
  ReadyEnclave_destroy := ReadyEnclave_destroy env;
  workorder_HandleWorkOrderRequest sealed_signup_data serialized_request :=
    workorder_HandleWorkOrderRequest env (f sealed_signup_data)
      (g serialized_request);
  workorder_GetSerializedResponse sealed_signup_data :=
    workorder_GetSerializedResponse env (f sealed_signup_data)
|}.
End Wrapper.

(** An operation fails with [e] when it throws [e] or reports the status
    code of [e]. *)
Definition failed_with {A} (status : A -> tcf_err_t) (r : Outcome A)
    (e : Error) : Prop :=
  match r with
  | Throw e' => e' = e
  | Return a => status a = TCF_ERR e
  end.

(** What lines 56 and 57 make of the answer of the fetch call: the
    response on success, the error otherwise. *)
Definition delivered (answer : Outcome (tcf_err_t * Base64EncodedString))
    : Outcome Base64EncodedString :=
  match answer with
  | Return (TCF_SUCCESS, response) => Return response
  | Return (TCF_ERR e, _) => Throw e
  | Throw e => Throw e
  end.

(** ** The collaborators, after the specification *)

(** Modelled from the spec: the pool of ready enclaves
    ([tcf::enclave_queue], reached through [tcf::enclave_api::base]) is not
    among the sources.  The pool owns a fixed set of instances and tracks
    which are ready and which are in use.  Acquisition fails fast when no
    instance is ready; instances are handed out first in, first out. *)
Module enclave_queue.
Record Pool : Type := mkPool {
  ready : list N;
  in_use : list N
}.

Definition acquire (q : Pool) : option N * Pool :=
  match ready q with
  | [] => (None, q)
  | handle :: rest => (Some handle, mkPool rest (handle :: in_use q))
  end.

(** A release without a matching acquire is erroneous: it is refused and
    the pool is left as it was. *)
Definition release (handle : N) (q : Pool) : option unit * Pool :=
  if decide (handle ∈ in_use q)
  then (Some tt,
        mkPool (ready q ++ [handle])
               (filter (λ h, h ≠ handle) (in_use q)))
  else (None, q).

Definition held (handle : N) (q : Pool) : bool :=
  bool_decide (handle ∈ in_use q).

(** No instance is tracked twice. *)
Definition wf (q : Pool) : Prop := NoDup (ready q ++ in_use q).
End enclave_queue.

(** Modelled from the spec: the response store is not among the sources.
    [put] stages bytes under a fresh identifier, [take] hands them out and
    forgets them.  Identifiers come from a counter, so they are unique for
    the lifetime of the process. *)
Module response_store.
Record Store : Type := mkStore {
  next_identifier : N;
  staged : gmap N (list Byte.byte)
}.

Definition empty : Store := mkStore 0 ∅.

Definition put (bytes : list Byte.byte) (s : Store) : N * Store :=
  (next_identifier s,
   mkStore (N.succ (next_identifier s))
           (<[next_identifier s := bytes]> (staged s))).

Definition take (id : N) (s : Store) : (Error + list Byte.byte) * Store :=
  match staged s !! id with
  | None => (inl UnknownResponse, s)
  | Some bytes =>
      (inr bytes, mkStore (next_identifier s) (delete id (staged s)))
  end.

(** The size of a staged response, as [submit] reports it. *)
Definition size_of (id : N) (s : Store) : option N :=
  (λ bytes, N.of_nat (length bytes)) <$> staged s !! id.

(** Every staged identifier has been issued by the counter. *)
Definition wf (s : Store) : Prop :=
  ∀ id, is_Some (staged s !! id) → (id < next_identifier s)%N.

(** [id] was issued and its response has been taken. *)
Definition consumed (id : N) (s : Store) : Prop :=
  (id < next_identifier s)%N ∧ staged s !! id = None.

(** [id] was issued for [bytes]: it is staged with them or not at all. *)
Definition issued_for (id : N) (bytes : list Byte.byte) (s : Store) : Prop :=
  (id < next_identifier s)%N ∧ ∀ b, staged s !! id = Some b → b = bytes.

(** The operations a client of the store can perform. *)
Inductive Op : Type :=
| OpPut (bytes : list Byte.byte)
| OpTake (id : N).

Definition apply (op : Op) (s : Store) : Store :=
  match op with
  | OpPut bytes => snd (put bytes s)
  | OpTake id => snd (take id s)
  end.

Definition run (ops : list Op) (s : Store) : Store :=
  foldl (λ s op, apply op s) s ops.
End response_store.

Record World : Type := mkWorld {
  pool : enclave_queue.Pool;
  store : response_store.Store
}.

(** Modelled from the spec: the work-order processor
    ([tcf::enclave_api::workorder]) is not among the sources.  The trusted
    computation and the text-safe encoding are external to the core; they
    are parameters. *)
Section Processor.
Variable trusted_computation : N -> string -> string -> Z + list Byte.byte.
Variable encode : list Byte.byte -> Base64EncodedString.

Definition submit (handle : N) (sealed_signup_data serialized_request : string)
    (w : World) : (Error + N * N) * World :=
  if enclave_queue.held handle (pool w) then
    match trusted_computation handle sealed_signup_data serialized_request with
    | inl status => (inl (ComputationError status), w)
    | inr bytes =>
        let '(id, st) := response_store.put bytes (store w) in
        (inr (id, N.of_nat (length bytes)), mkWorld (pool w) st)
    end
  else (inl InvalidHandle, w).

Definition fetch (handle : N) (response_id : N) (expected_size : N)
    (w : World) : (Error + Base64EncodedString) * World :=
  if enclave_queue.held handle (pool w) then
    match response_store.size_of response_id (store w) with
    | None => (inl UnknownResponse, w)
    | Some size =>
        if decide (expected_size = size) then
          match response_store.take response_id (store w) with
          | (inl e, st) => (inl e, mkWorld (pool w) st)
          | (inr bytes, st) => (inr (encode bytes), mkWorld (pool w) st)
          end
        else (inl SizeMismatch, w)
    end
  else (inl InvalidHandle, w).

(** The functions behind the wrapper's calls.  The constructor of
    [ReadyEnclave] acquires, its destructor releases (release is implicit
    on scope exit); the two work-order calls report through a status
    code. *)
Definition spec_GetReadyEnclave (w : World) : Outcome ReadyEnclave * World :=
  match enclave_queue.acquire (pool w) with
  | (None, q) => (Throw PoolExhausted, mkWorld q (store w))
  | (Some handle, q) => (Return (mkReadyEnclave handle), mkWorld q (store w))
  end.

Definition spec_destroy (readyEnclave : ReadyEnclave) (w : World) : World :=
  mkWorld (snd (enclave_queue.release (getIndex readyEnclave) (pool w)))
          (store w).

Definition spec_HandleWorkOrderRequest
    (sealed_signup_data serialized_request : string) (enclave_index : N)
    (w : World) : Outcome (tcf_err_t * uint32_t * size_t) * World :=
  match submit enclave_index sealed_signup_data serialized_request w with
  | (inl e, w') => (Return (TCF_ERR e, 0%N, 0%N), w')
  | (inr (id, size), w') => (Return (TCF_SUCCESS, id, size), w')
  end.

Definition spec_GetSerializedResponse
    (sealed_signup_data : string) (response_identifier : uint32_t)
    (response_size : size_t) (enclave_index : N)
    (w : World) : Outcome (tcf_err_t * Base64EncodedString) * World :=
  match fetch enclave_index response_identifier response_size w with
  | (inl e, w') => (Return (TCF_ERR e, ""), w')
  | (inr response, w') => (Return (TCF_SUCCESS, response), w')
  end.

Definition spec_collaborators : Collaborators World := {|
  base_GetReadyEnclave := spec_GetReadyEnclave;
  ReadyEnclave_destroy := spec_destroy;
  workorder_HandleWorkOrderRequest := spec_HandleWorkOrderRequest;
  workorder_GetSerializedResponse := spec_GetSerializedResponse
|}.

(** What any caller may do to the shared state, in any order. *)
Inductive Action : Type :=
| DoAcquire
| DoRelease (readyEnclave : ReadyEnclave)
| DoSubmit (handle : N) (sealed_signup_data serialized_request : string)
| DoFetch (handle : N) (response_id : N) (expected_size : N).

Definition perform (a : Action) (w : World) : World :=
  match a with
  | DoAcquire => snd (spec_GetReadyEnclave w)
  | DoRelease readyEnclave => spec_destroy readyEnclave w
  | DoSubmit handle sealed_signup_data serialized_request =>
      snd (submit handle sealed_signup_data serialized_request w)
  | DoFetch handle response_id expected_size =>
      snd (fetch handle response_id expected_size w)
  end.

Definition perform_all (acts : list Action) (w : World) : World :=
  foldl (λ w a, perform a w) w acts.
End Processor.

(** ** Concurrent callers *)

(** Several threads call the wrapper at once.  Each call into a
    collaborator is one atomic step on the shared state; between two such
    steps of one caller, any other caller may move.  A caller's own state
    is where it stands in [HandleWorkOrderRequest] and the locals it has
    there. *)
Inductive Caller : Type :=
| Idle
| AtSubmit (sealed_signup_data serialized_request : string)
    (readyEnclave : ReadyEnclave)
| AtFetch (sealed_signup_data : string) (readyEnclave : ReadyEnclave)
    (response_identifier : uint32_t) (response_size : size_t)
| AtExit (readyEnclave : ReadyEnclave) (result : Outcome Base64EncodedString)
| Done (result : Outcome Base64EncodedString).

(** The enclave a caller holds: the index of its live [ReadyEnclave]. *)
Definition holds (c : Caller) : option N :=
  match c with
  | AtSubmit _ _ readyEnclave
  | AtFetch _ readyEnclave _ _
  | AtExit readyEnclave _ => Some (getIndex readyEnclave)
  | Idle | Done _ => None
  end.

Record System (W : Type) : Type := mkSystem {
  shared : W;
  callers : nat -> Caller
}.
Arguments mkSystem {W} _ _.
Arguments shared {W} _.
Arguments callers {W} _ _.

Section Callers.
Context {W : Type} (env : Collaborators W).

(** One step of one caller: lines 39, 41 to 47, 50 to 56 and the scope
    exit of [HandleWorkOrderRequest].  A caller that is not inside the
    wrapper enters it with the arguments [input]. *)
Definition caller_step (c : Caller) (input : string * string) (w : W)
    : Caller * W :=
  match c with
  | Idle | Done _ =>
      match base_GetReadyEnclave env w with
      | (Throw e, w') => (Done (Throw e), w')
      | (Return readyEnclave, w') =>
          (AtSubmit (fst input) (snd input) readyEnclave, w')
      end
  | AtSubmit sealed_signup_data serialized_request readyEnclave =>
      match workorder_HandleWorkOrderRequest env sealed_signup_data
              serialized_request (getIndex readyEnclave) w with
      | (Throw e, w') => (AtExit readyEnclave (Throw e), w')
      | (Return (TCF_ERR e, _, _), w') => (AtExit readyEnclave (Throw e), w')
      | (Return (TCF_SUCCESS, response_identifier, response_size), w') =>
          (AtFetch sealed_signup_data readyEnclave response_identifier
             response_size, w')
      end
  | AtFetch sealed_signup_data readyEnclave response_identifier
      response_size =>
      match workorder_GetSerializedResponse env sealed_signup_data
              response_identifier response_size (getIndex readyEnclave) w with
      | (Throw e, w') => (AtExit readyEnclave (Throw e), w')
      | (Return (TCF_ERR e, _), w') => (AtExit readyEnclave (Throw e), w')
      | (Return (TCF_SUCCESS, response), w') =>
          (AtExit readyEnclave (Return response), w')
      end
  | AtExit readyEnclave result =>
      (Done result, ReadyEnclave_destroy env readyEnclave w)
  end.

Definition system_step (t : nat) (input : string * string) (s : System W)
    : System W :=
  let '(c, w) := caller_step (callers s t) input (shared s) in
  mkSystem w (<[t := c]> (callers s)).

Inductive step : System W -> System W -> Prop :=
| step_caller (t : nat) (input : string * string) (s : System W) :
    step s (system_step t input s).

(** A schedule names, step by step, the caller that moves and the
    arguments it would enter the wrapper with. *)
Definition schedule (steps : list (nat * (string * string))) (s : System W)
    : System W :=
  foldl (λ s '(t, input), system_step t input s) s steps.
End Callers.

Definition initial {W : Type} (w : W) : System W := mkSystem w (λ _, Idle).

(** The pool tracks no instance twice, every enclave a caller holds is in
    use, and no two callers hold the same one. *)
Definition exclusive (s : System World) : Prop :=
  enclave_queue.wf (pool (shared s))
  ∧ (∀ t h, holds (callers s t) = Some h →
            h ∈ enclave_queue.in_use (pool (shared s)))
  ∧ (∀ t1 t2 h, holds (callers s t1) = Some h →
                holds (callers s t2) = Some h → t1 = t2).

(** ** A stub enclave, for running the definitions *)

(** The stub rejects the empty request with status 7 and answers any other
    request with its bytes; the stub encoding reads bytes as characters. *)
Definition stub_computation (handle : N) (sealed_signup_data
    serialized_request : string) : Z + list Byte.byte :=
  if decide (serialized_request = "") then inl 7%Z
  else inr (list_byte_of_string serialized_request).

Definition stub_encode : list Byte.byte -> Base64EncodedString :=
  string_of_list_byte.

Definition stub_env : Collaborators World :=
  spec_collaborators stub_computation stub_encode.

Definition stub_world (n : nat) : World :=
  mkWorld (enclave_queue.mkPool (N.of_nat <$> seq 0 n) [])
          response_store.empty.

(** A store that has lost what was staged: every fetch finds nothing. *)
Definition evicting_env : Collaborators World := {|
  base_GetReadyEnclave := base_GetReadyEnclave stub_env;
  ReadyEnclave_destroy := ReadyEnclave_destroy stub_env;
  workorder_HandleWorkOrderRequest :=
    workorder_HandleWorkOrderRequest stub_env;
  workorder_GetSerializedResponse _ _ _ _ w :=
    (Return (TCF_ERR UnknownResponse, ""), w)
|}.

(** A fetch call that answers with the sealed signup data it was given. *)
Definition echo_env : Collaborators World := {|
  base_GetReadyEnclave := base_GetReadyEnclave stub_env;
  ReadyEnclave_destroy := ReadyEnclave_destroy stub_env;
  workorder_HandleWorkOrderRequest :=
    workorder_HandleWorkOrderRequest stub_env;
  workorder_GetSerializedResponse sealed_signup_data _ _ _ w :=
    (Return (TCF_SUCCESS, sealed_signup_data), w)
|}.

(** The enclave a call names, for the calls that name one. *)
Definition enclave_of (c : Call) : option N :=
  match c with
  | CallGetReadyEnclave => None
  | CallHandleWorkOrderRequest _ _ enclave_index
  | CallGetSerializedResponse _ _ _ enclave_index
  | CallDestroyReadyEnclave enclave_index => Some enclave_index
  end.

(** An enclave that gives the same one-byte answer to every request. *)
Definition constant_env : Collaborators World :=
  spec_collaborators (λ _ _ _, inr [Byte.x2a]) stub_encode.

(** * Properties *)

(** ** The wrapper, for arbitrary collaborators *)

Ltac unfold_wrapper :=
  unfold outcome_of, state_after, calls_of, HandleWorkOrderRequest, automatic,
    bind, GetReadyEnclave, workorder_submit, workorder_fetch,
    DestroyReadyEnclave, extern;
  cbn [world calls fst snd].

(** Case analysis on what the collaborators answer along one run. *)
Ltac collaborator_cases env :=
  repeat match goal with
  | |- context [base_GetReadyEnclave env ?w] =>
      let E := fresh "Eacquire" in
      destruct (base_GetReadyEnclave env w) as [[?readyEnclave|?e] ?w] eqn:E;
      cbn [world calls fst snd ThrowTCFError ret throw]
  | |- context [workorder_HandleWorkOrderRequest env ?s ?r ?i ?w] =>
      let E := fresh "Esubmit" in
      destruct (workorder_HandleWorkOrderRequest env s r i w)
        as [[[[[|?e] ?id] ?size]|?e] ?w] eqn:E;
      cbn [world calls fst snd ThrowTCFError ret throw]
  | |- context [workorder_GetSerializedResponse env ?s ?id ?n ?i ?w] =>
      let E := fresh "Efetch" in
      destruct (workorder_GetSerializedResponse env s id n i w)
        as [[[[|?e] ?response]|?e] ?w] eqn:E;
      cbn [world calls fst snd ThrowTCFError ret throw]
  end.

Section WrapperFacts.
Context {W : Type} (env : Collaborators W).
Implicit Types (w : W) (sealed_signup_data serialized_request : string).

(** A run takes one of three shapes: the acquisition failed; the submit
    call failed; the fetch call was reached. *)
Lemma calls_of_shape sealed_signup_data serialized_request w :
  calls_of env sealed_signup_data serialized_request w
    = [CallGetReadyEnclave]
  ∨ ∃ index,
      calls_of env sealed_signup_data serialized_request w =
        [CallGetReadyEnclave;
         CallHandleWorkOrderRequest sealed_signup_data serialized_request
           index;
         CallDestroyReadyEnclave index]
      ∨ ∃ id size,
          calls_of env sealed_signup_data serialized_request w =
            [CallGetReadyEnclave;
             CallHandleWorkOrderRequest sealed_signup_data
               serialized_request index;
             CallGetSerializedResponse sealed_signup_data id size index;
             CallDestroyReadyEnclave index].
Proof.
  unfold_wrapper. collaborator_cases env; eauto 6.
Qed.

(** C1. Whatever the outcome of a run (a response, an error of the submit
    call, an error of the fetch call), the [ReadyEnclave] acquired on
    entry is destroyed, that is released, exactly once, as the last
    effect of the run; when the acquisition itself fails there is
    nothing to release and nothing is released. *)
Theorem enclave_released_on_every_exit_path
    sealed_signup_data serialized_request w :
  match base_GetReadyEnclave env w with
  | (Throw e, w1) =>
      outcome_of env sealed_signup_data serialized_request w = Throw e
      ∧ calls_of env sealed_signup_data serialized_request w
          = [CallGetReadyEnclave]
      ∧ state_after env sealed_signup_data serialized_request w = w1
  | (Return readyEnclave, w1) =>
      ∃ inner w2,
        calls_of env sealed_signup_data serialized_request w
          = CallGetReadyEnclave
              :: inner ++ [CallDestroyReadyEnclave (getIndex readyEnclave)]
        ∧ Forall (λ c, is_acquire c = false ∧ is_destroy c = false) inner
        ∧ state_after env sealed_signup_data serialized_request w
            = ReadyEnclave_destroy env readyEnclave w2
  end.
Proof.
  unfold_wrapper. collaborator_cases env; cbn [app]; try done;
    match goal with
    | |- ∃ _ _, [_; ?a; ?b; _] = _ ∧ _ => exists [a; b]
    | |- ∃ _ _, [_; ?a; _] = _ ∧ _ => exists [a]
    end;
    eexists; (split; [reflexivity|]); (split; [|reflexivity]);
    repeat constructor.
Qed.

(** C2. The first operation that fails decides the outcome: its error is
    what the caller gets, thrown as it is.  Nothing is run after the
    failure but the destructor of the enclave, and nothing is run again:
    the state the collaborators are left in is the state the failed
    operation left, released; the log shows each operation called once.
    In particular the fetch call is not made after a failed submit
    call. *)
Theorem first_error_propagates sealed_signup_data serialized_request w :
  (∀ e w1,
     base_GetReadyEnclave env w = (Throw e, w1) →
     outcome_of env sealed_signup_data serialized_request w = Throw e
     ∧ state_after env sealed_signup_data serialized_request w = w1
     ∧ calls_of env sealed_signup_data serialized_request w
         = [CallGetReadyEnclave])
  ∧ (∀ readyEnclave w1 r w2 e,
       base_GetReadyEnclave env w = (Return readyEnclave, w1) →
       workorder_HandleWorkOrderRequest env sealed_signup_data
         serialized_request (getIndex readyEnclave) w1 = (r, w2) →
       failed_with (λ x, x.1.1) r e →
       outcome_of env sealed_signup_data serialized_request w = Throw e
       ∧ state_after env sealed_signup_data serialized_request w
           = ReadyEnclave_destroy env readyEnclave w2
       ∧ calls_of env sealed_signup_data serialized_request w
           = [CallGetReadyEnclave;
              CallHandleWorkOrderRequest sealed_signup_data
                serialized_request (getIndex readyEnclave);
              CallDestroyReadyEnclave (getIndex readyEnclave)])
  ∧ (∀ readyEnclave w1 id size w2 r w3 e,
       base_GetReadyEnclave env w = (Return readyEnclave, w1) →
       workorder_HandleWorkOrderRequest env sealed_signup_data
         serialized_request (getIndex readyEnclave) w1
         = (Return (TCF_SUCCESS, id, size), w2) →
       workorder_GetSerializedResponse env sealed_signup_data id size
         (getIndex readyEnclave) w2 = (r, w3) →
       failed_with fst r e →
       outcome_of env sealed_signup_data serialized_request w = Throw e
       ∧ state_after env sealed_signup_data serialized_request w
           = ReadyEnclave_destroy env readyEnclave w3
       ∧ calls_of env sealed_signup_data serialized_request w
           = [CallGetReadyEnclave;
              CallHandleWorkOrderRequest sealed_signup_data
                serialized_request (getIndex readyEnclave);
              CallGetSerializedResponse sealed_signup_data id size
                (getIndex readyEnclave);
              CallDestroyReadyEnclave (getIndex readyEnclave)]).
Proof.
  split; [|split].
  - intros e w1 Hacquire. unfold_wrapper. by rewrite Hacquire.
  - intros readyEnclave w1 r w2 e Hacquire Hsubmit Hfail. unfold_wrapper.
    rewrite Hacquire. cbn [world calls]. rewrite Hsubmit.
    destruct r as [[[status id] size]|e']; cbn in Hfail; subst; done.
  - intros readyEnclave w1 id size w2 r w3 e Hacquire Hsubmit Hfetch Hfail.
    unfold_wrapper. rewrite Hacquire. cbn [world calls]. rewrite Hsubmit.
    cbn [world calls ThrowTCFError ret]. rewrite Hfetch.
    destruct r as [[status response]|e']; cbn in Hfail; subst; done.
Qed.

(** C8. The two buffers reach the collaborators as they were given: the
    submit call carries both, the fetch call carries the sealed signup
    data, and no other call carries a buffer.  The wrapper does not look
    into them either: it commutes with any recoding of the buffers.
    (The parameters are references to constant strings; they are values
    here, which the wrapper has no means to change.) *)
Theorem buffers_passed_through_unchanged
    sealed_signup_data serialized_request w :
  Forall (λ c, match c with
               | CallHandleWorkOrderRequest s r _ =>
                   s = sealed_signup_data ∧ r = serialized_request
               | CallGetSerializedResponse s _ _ _ => s = sealed_signup_data
               | CallGetReadyEnclave | CallDestroyReadyEnclave _ => True
               end)
         (calls_of env sealed_signup_data serialized_request w)
  ∧ ∀ f g : string -> string,
      outcome_of (recode env f g) sealed_signup_data serialized_request w
        = outcome_of env (f sealed_signup_data) (g serialized_request) w
      ∧ state_after (recode env f g) sealed_signup_data serialized_request w
        = state_after env (f sealed_signup_data) (g serialized_request) w.
Proof.
  split.
  - destruct (calls_of_shape sealed_signup_data serialized_request w)
      as [->|[index [->|(id & size & ->)]]]; repeat constructor.
  - intros f g. unfold_wrapper. cbn [recode base_GetReadyEnclave
      ReadyEnclave_destroy workorder_HandleWorkOrderRequest
      workorder_GetSerializedResponse].
    collaborator_cases env; done.
Qed.

(** C9. The fetch call is made with the index of the enclave that
    [GetReadyEnclave] returned and with the identifier and the size that
    the submit call wrote, and with nothing else.  Whenever acquisition
    and submit succeed, what the caller gets and the state that is left
    are those of the fetch collaborator run on exactly these arguments,
    on the state the submit call left, and this is the one fetch call of
    the run.  When the submit call fails the fetch collaborator is not
    run, with any arguments.  Every fetch call of any run arises so. *)
Theorem fetch_arguments_come_from_acquire_and_submit
    sealed_signup_data serialized_request w :
  (∀ readyEnclave w1 id size w2,
     base_GetReadyEnclave env w = (Return readyEnclave, w1) →
     workorder_HandleWorkOrderRequest env sealed_signup_data
       serialized_request (getIndex readyEnclave) w1
       = (Return (TCF_SUCCESS, id, size), w2) →
     outcome_of env sealed_signup_data serialized_request w
       = delivered (workorder_GetSerializedResponse env sealed_signup_data
                      id size (getIndex readyEnclave) w2).1
     ∧ state_after env sealed_signup_data serialized_request w
       = ReadyEnclave_destroy env readyEnclave
           (workorder_GetSerializedResponse env sealed_signup_data id size
              (getIndex readyEnclave) w2).2
     ∧ filter (λ c, is_fetch c = true)
         (calls_of env sealed_signup_data serialized_request w)
       = [CallGetSerializedResponse sealed_signup_data id size
            (getIndex readyEnclave)])
  ∧ (∀ readyEnclave w1 answer w2 e,
       base_GetReadyEnclave env w = (Return readyEnclave, w1) →
       workorder_HandleWorkOrderRequest env sealed_signup_data
         serialized_request (getIndex readyEnclave) w1 = (answer, w2) →
       failed_with (λ x, x.1.1) answer e →
       state_after env sealed_signup_data serialized_request w
         = ReadyEnclave_destroy env readyEnclave w2
       ∧ filter (λ c, is_fetch c = true)
           (calls_of env sealed_signup_data serialized_request w) = [])
  ∧ (∀ s id size index,
       CallGetSerializedResponse s id size index
         ∈ calls_of env sealed_signup_data serialized_request w →
       ∃ readyEnclave w1 w2,
         base_GetReadyEnclave env w = (Return readyEnclave, w1)
         ∧ workorder_HandleWorkOrderRequest env sealed_signup_data
             serialized_request (getIndex readyEnclave) w1
             = (Return (TCF_SUCCESS, id, size), w2)
         ∧ index = getIndex readyEnclave).
Proof.
  split; [|split].
  - intros readyEnclave w1 id size w2 Hacquire Hsubmit. unfold_wrapper.
    rewrite Hacquire. cbn [world calls]. rewrite Hsubmit.
    cbn [world calls ThrowTCFError ret].
    collaborator_cases env; done.
  - intros readyEnclave w1 answer w2 e Hacquire Hsubmit Hfail.
    unfold_wrapper. rewrite Hacquire. cbn [world calls]. rewrite Hsubmit.
    destruct answer as [[[status id] size]|e']; cbn in Hfail; subst; done.
  - intros s id size index. unfold_wrapper.
    collaborator_cases env; cbn [app]; intros Hin;
      repeat (apply elem_of_cons in Hin as [Hin|Hin]; try discriminate);
      try (by apply elem_of_nil in Hin);
      injection Hin as -> -> -> ->; eauto 10.
Qed.

(** C10. The fetch collaborator is given the sealed signup data the
    wrapper was called with, the same string the submit collaborator was
    given: after a successful submit call on [sealed_signup_data], what
    the caller gets and the state that is left are those of the fetch
    collaborator run on [sealed_signup_data], next to the identifier, the
    size and the index.  In the log, a run that makes the fetch call has
    made the submit call before it, with the same sealed signup data. *)
Theorem fetch_receives_the_sealed_signup_data
    sealed_signup_data serialized_request w :
  (∀ readyEnclave w1 id size w2 answer w3,
     base_GetReadyEnclave env w = (Return readyEnclave, w1) →
     workorder_HandleWorkOrderRequest env sealed_signup_data
       serialized_request (getIndex readyEnclave) w1
       = (Return (TCF_SUCCESS, id, size), w2) →
     workorder_GetSerializedResponse env sealed_signup_data id size
       (getIndex readyEnclave) w2 = (answer, w3) →
     outcome_of env sealed_signup_data serialized_request w
       = delivered answer
     ∧ state_after env sealed_signup_data serialized_request w
       = ReadyEnclave_destroy env readyEnclave w3)
  ∧ (∀ s id size index,
       CallGetSerializedResponse s id size index
         ∈ calls_of env sealed_signup_data serialized_request w →
       s = sealed_signup_data
       ∧ calls_of env sealed_signup_data serialized_request w
           = [CallGetReadyEnclave;
              CallHandleWorkOrderRequest s serialized_request index;
              CallGetSerializedResponse s id size index;
              CallDestroyReadyEnclave index]).
Proof.
  split.
  - intros readyEnclave w1 id size w2 answer w3 Hacquire Hsubmit Hfetch.
    unfold_wrapper. rewrite Hacquire. cbn [world calls]. rewrite Hsubmit.
    cbn [world calls ThrowTCFError ret]. rewrite Hfetch.
    by destruct answer as [[[|e] response]|e].
  - intros s id size index.
    destruct (calls_of_shape sealed_signup_data serialized_request w)
      as [->|[index' [->|(id' & size' & ->)]]]; intros Hin;
      repeat (apply elem_of_cons in Hin as [Hin|Hin]; try discriminate);
      try (by apply elem_of_nil in Hin).
    by injection Hin as -> -> -> ->.
Qed.
End WrapperFacts.

(** ** The response store *)

Section StoreFacts.
Import response_store.
Implicit Types (s : Store) (id : N) (bytes : list Byte.byte).

Lemma wf_empty : wf empty.
Proof. intros id [b Hb]. cbn in Hb. by rewrite lookup_empty in Hb. Qed.

Lemma wf_apply op s : wf s → wf (apply op s).
Proof.
  intros Hwf. destruct op as [bytes|id]; cbn.
  - intros id. cbn. destruct (decide (next_identifier s = id)) as [<-|Hne].
    + lia.
    + rewrite lookup_insert_ne by done. intros H%Hwf. lia.
  - unfold take. destruct (staged s !! id) eqn:E; cbn; [|done].
    intros id'. cbn. destruct (decide (id = id')) as [<-|Hne].
    + rewrite lookup_delete_eq. by intros [? ?].
    + rewrite lookup_delete_ne by done. apply Hwf.
Qed.

Lemma wf_run ops s : wf s → wf (run ops s).
Proof.
  revert s. induction ops as [|op ops IH]; intros s Hwf; [done|].
  cbn. apply IH. by apply wf_apply.
Qed.

Lemma consumed_apply id op s : consumed id s → consumed id (apply op s).
Proof.
  intros [Hlt Hnone]. destruct op as [bytes|id']; cbn.
  - split; cbn; [lia|]. rewrite lookup_insert_ne by lia. done.
  - unfold take. destruct (staged s !! id') eqn:E; cbn; [|done].
    split; cbn; [done|].
    destruct (decide (id' = id)) as [->|Hne].
    + apply lookup_delete_eq.
    + by rewrite lookup_delete_ne.
Qed.

Lemma consumed_run id ops s : consumed id s → consumed id (run ops s).
Proof.
  revert s. induction ops as [|op ops IH]; intros s H; [done|].
  cbn. apply IH. by apply consumed_apply.
Qed.

Lemma issued_for_apply id bytes op s :
  issued_for id bytes s → issued_for id bytes (apply op s).
Proof.
  intros [Hlt Honly]. destruct op as [bytes'|id']; cbn.
  - split; cbn; [lia|]. intros b. rewrite lookup_insert_ne by lia.
    apply Honly.
  - unfold take. destruct (staged s !! id') eqn:E; cbn; [|done].
    split; cbn; [done|]. intros b.
    destruct (decide (id' = id)) as [->|Hne].
    + by rewrite lookup_delete_eq.
    + rewrite lookup_delete_ne by done. apply Honly.
Qed.

Lemma issued_for_run id bytes ops s :
  issued_for id bytes s → issued_for id bytes (run ops s).
Proof.
  revert s. induction ops as [|op ops IH]; intros s H; [done|].
  cbn. apply IH. by apply issued_for_apply.
Qed.

Lemma take_consumed id s :
  consumed id s → take id s = (inl UnknownResponse, s).
Proof. intros [_ Hnone]. unfold take. by rewrite Hnone. Qed.

Lemma take_consumes id bytes s s1 :
  wf s → take id s = (inr bytes, s1) → consumed id s1.
Proof.
  intros Hwf. unfold take. destruct (staged s !! id) eqn:E; [|done].
  intros [= <- <-]. split; cbn.
  - apply Hwf. by rewrite E.
  - apply lookup_delete_eq.
Qed.

Lemma put_issues bytes s :
  wf s → issued_for (fst (put bytes s)) bytes (snd (put bytes s))
         ∧ staged (snd (put bytes s)) !! fst (put bytes s) = Some bytes.
Proof.
  intros Hwf. cbn. rewrite lookup_insert_eq. split; [|done].
  split; cbn; [lia|]. rewrite lookup_insert_eq. by intros b [= <-].
Qed.

(** C4. Taking what [put] has just staged, under the identifier [put]
    returned, gives back the bytes that were put. *)
Theorem take_put_round_trip bytes s :
  fst (take (fst (put bytes s)) (snd (put bytes s))) = inr bytes.
Proof. unfold take, put. cbn. by rewrite lookup_insert_eq. Qed.
End StoreFacts.

(** ** The processor and the wrapper linked against it *)

Section ProcessorFacts.
Variable trusted_computation : N -> string -> string -> Z + list Byte.byte.
Variable encode : list Byte.byte -> Base64EncodedString.

Local Abbreviation submit := (submit trusted_computation).
Local Abbreviation fetch := (fetch encode).
Local Abbreviation perform := (perform trusted_computation encode).
Local Abbreviation perform_all := (perform_all trusted_computation encode).
Local Abbreviation env := (spec_collaborators trusted_computation encode).

Implicit Types (w : World) (handle id : N).

Lemma submit_pool handle sealed_signup_data serialized_request w :
  pool (snd (submit handle sealed_signup_data serialized_request w)) = pool w.
Proof.
  unfold submit. destruct (enclave_queue.held _ _); [|done].
  by destruct (trusted_computation _ _ _).
Qed.

Lemma fetch_pool handle id size w :
  pool (snd (fetch handle id size w)) = pool w.
Proof.
  unfold fetch. destruct (enclave_queue.held _ _); [|done].
  destruct (response_store.size_of _ _); [|done].
  case_decide; [|done].
  by destruct (response_store.take _ _) as [[?|?] ?].
Qed.

(** Whatever a caller does, the store only sees puts and takes. *)
Lemma perform_store a w :
  ∃ ops, store (perform a w) = response_store.run ops (store w).
Proof.
  destruct a as [|readyEnclave|handle sealed request|handle id size]; cbn.
  - exists []. unfold spec_GetReadyEnclave.
    by destruct (enclave_queue.acquire _) as [[?|] ?].
  - by exists [].
  - unfold submit. destruct (enclave_queue.held _ _); [|by exists []].
    destruct (trusted_computation _ _ _) as [status|bytes]; [by exists []|].
    by exists [response_store.OpPut bytes].
  - unfold fetch. destruct (enclave_queue.held _ _); [|by exists []].
    destruct (response_store.size_of _ _); [|by exists []].
    case_decide; [|by exists []].
    exists [response_store.OpTake id]. cbn.
    by destruct (response_store.take _ _) as [[?|?] ?].
Qed.

Lemma perform_all_store acts w :
  ∃ ops, store (perform_all acts w) = response_store.run ops (store w).
Proof.
  revert w. induction acts as [|a acts IH]; intros w; [by exists []|].
  destruct (IH (perform a w)) as [ops2 H2].
  destruct (perform_store a w) as [ops1 H1].
  exists (ops1 ++ ops2)%list. unfold response_store.run. rewrite foldl_app.
  fold (response_store.run ops1 (store w)). rewrite <- H1.
  exact H2.
Qed.

Lemma fetch_consumed handle id size w :
  enclave_queue.held handle (pool w) = true →
  response_store.staged (store w) !! id = None →
  fetch handle id size w = (inl UnknownResponse, w).
Proof.
  intros Hheld Hnone. unfold fetch, response_store.size_of.
  by rewrite Hheld, Hnone.
Qed.

(** C5. A response is handed out once.  Once [take] has handed out the
    response of an identifier, every later [take] of that identifier
    fails with [UnknownResponse], whatever was put or taken in between;
    so does a [take] of an identifier that is not staged.  The same holds
    of [fetch], for a caller that holds its enclave, whatever the callers
    did in between. *)
Theorem response_is_taken_at_most_once :
  (∀ s id bytes s1 ops,
     response_store.wf s →
     response_store.take id s = (inr bytes, s1) →
     response_store.take id (response_store.run ops s1)
       = (inl UnknownResponse, response_store.run ops s1))
  ∧ (∀ s id,
       response_store.staged s !! id = None →
       response_store.take id s = (inl UnknownResponse, s))
  ∧ (∀ w handle id size response w1 acts handle' size',
       response_store.wf (store w) →
       fetch handle id size w = (inr response, w1) →
       enclave_queue.held handle' (pool (perform_all acts w1)) = true →
       fetch handle' id size' (perform_all acts w1)
         = (inl UnknownResponse, perform_all acts w1))
  ∧ (∀ w handle id size,
       enclave_queue.held handle (pool w) = true →
       response_store.staged (store w) !! id = None →
       fetch handle id size w = (inl UnknownResponse, w)).
Proof.
  split_and!.
  - intros s id bytes s1 ops Hwf Htake.
    apply take_consumed, consumed_run. eauto using take_consumes.
  - intros s id Hnone. unfold response_store.take. by rewrite Hnone.
  - intros w handle id size response w1 acts handle' size' Hwf Hfetch Hheld.
    apply fetch_consumed; [done|].
    destruct (perform_all_store acts w1) as [ops ->].
    apply consumed_run. clear Hheld. revert Hfetch. unfold fetch.
    destruct (enclave_queue.held handle (pool w)); [|done].
    destruct (response_store.size_of id (store w)); [|done].
    case_decide; [|done].
    destruct (response_store.take id (store w)) as [[?|bytes] st] eqn:Htake;
      [done|].
    intros [= <- <-]. cbn. eauto using take_consumes.
  - intros w handle id size. apply fetch_consumed.
Qed.

Lemma submit_issues w handle sealed_signup_data serialized_request id size w1 :
  response_store.wf (store w) →
  submit handle sealed_signup_data serialized_request w
    = (inr (id, size), w1) →
  ∃ bytes, size = N.of_nat (length bytes)
           ∧ response_store.issued_for id bytes (store w1).
Proof.
  intros Hwf. unfold submit.
  destruct (enclave_queue.held handle (pool w)); [|done].
  destruct (trusted_computation _ _ _) as [status|bytes]; [done|].
  intros [= <- <- <-]. exists bytes. split; [done|].
  apply (put_issues bytes (store w) Hwf).
Qed.

(** C6. After [submit] has returned an identifier and a size, and for as
    long as the response stays staged, a [fetch] of that identifier that
    expects another size fails with [SizeMismatch]; it returns no
    response and leaves the staged response where it is. *)
Theorem size_mismatch_releases_nothing
    w handle sealed_signup_data serialized_request id size w1 acts
    handle' expected_size :
  response_store.wf (store w) →
  submit handle sealed_signup_data serialized_request w
    = (inr (id, size), w1) →
  is_Some (response_store.staged (store (perform_all acts w1)) !! id) →
  enclave_queue.held handle' (pool (perform_all acts w1)) = true →
  expected_size ≠ size →
  fetch handle' id expected_size (perform_all acts w1)
    = (inl SizeMismatch, perform_all acts w1).
Proof.
  intros Hwf Hsubmit [b Hstaged] Hheld Hne.
  destruct (submit_issues _ _ _ _ _ _ _ Hwf Hsubmit) as (bytes & -> & Hissued).
  destruct (perform_all_store acts w1) as [ops Hops].
  apply (issued_for_run _ _ ops) in Hissued. rewrite <- Hops in Hissued.
  destruct Hissued as [_ Honly]. apply Honly in Hstaged as Hb. subst b.
  unfold fetch, response_store.size_of. rewrite Hheld, Hstaged. cbn.
  by case_decide.
Qed.

Lemma submit_fails_unchanged handle sealed_signup_data serialized_request
    w e w' :
  submit handle sealed_signup_data serialized_request w = (inl e, w') →
  w' = w.
Proof.
  unfold submit. destruct (enclave_queue.held handle (pool w)).
  - destruct (trusted_computation _ _ _); [|done]. by intros [= _ <-].
  - by intros [= _ <-].
Qed.

(** C7. When the submit call fails, the caller gets its error, the
    enclave that was acquired is ready again and no longer in use, and
    the response store is as it was before the call: no identifier was
    issued and nothing was staged. *)
Theorem failed_submit_is_atomic
    sealed_signup_data serialized_request w handle q e w2 :
  enclave_queue.acquire (pool w) = (Some handle, q) →
  submit handle sealed_signup_data serialized_request
    (mkWorld q (store w)) = (inl e, w2) →
  outcome_of env sealed_signup_data serialized_request w = Throw e
  ∧ (handle ∈ enclave_queue.ready
                (pool (state_after env sealed_signup_data
                         serialized_request w)))
  ∧ (handle ∉ enclave_queue.in_use
                (pool (state_after env sealed_signup_data
                         serialized_request w)))
  ∧ store (state_after env sealed_signup_data serialized_request w)
      = store w
  ∧ calls_of env sealed_signup_data serialized_request w
      = [CallGetReadyEnclave;
         CallHandleWorkOrderRequest sealed_signup_data serialized_request
           handle;
         CallDestroyReadyEnclave handle].
Proof.
  intros Hacquire Hsubmit.
  pose proof (submit_fails_unchanged _ _ _ _ _ _ Hsubmit) as ->.
  unfold_wrapper.
  cbn [spec_collaborators base_GetReadyEnclave ReadyEnclave_destroy
       workorder_HandleWorkOrderRequest].
  unfold spec_GetReadyEnclave, spec_HandleWorkOrderRequest.
  rewrite Hacquire. cbn [world calls getIndex]. rewrite Hsubmit.
  cbn [world calls fst snd ThrowTCFError throw app].
  revert Hacquire. unfold enclave_queue.acquire.
  destruct (enclave_queue.ready (pool w)) as [|h rest]; [done|].
  intros [= -> <-].
  unfold spec_destroy, enclave_queue.release.
  cbn [pool store getIndex enclave_queue.in_use enclave_queue.ready].
  rewrite decide_True by (apply elem_of_cons; by left).
  cbn [snd pool store enclave_queue.in_use enclave_queue.ready].
  split_and!; try done.
  - apply elem_of_app. right. by apply list_elem_of_singleton.
  - intros [Hne _]%list_elem_of_filter. done.
Qed.

(** With these collaborators the wrapper never fails at the fetch call:
    once an enclave is acquired and the trusted computation answers, the
    caller gets the encoding of the answer. *)
Lemma handle_work_order_returns_response
    sealed_signup_data serialized_request w handle q bytes :
  enclave_queue.acquire (pool w) = (Some handle, q) →
  trusted_computation handle sealed_signup_data serialized_request
    = inr bytes →
  outcome_of env sealed_signup_data serialized_request w
    = Return (encode bytes).
Proof.
  intros Hacquire Hcompute. unfold_wrapper.
  cbn [spec_collaborators base_GetReadyEnclave ReadyEnclave_destroy
       workorder_HandleWorkOrderRequest workorder_GetSerializedResponse].
  unfold spec_GetReadyEnclave. rewrite Hacquire.
  cbn [world calls getIndex fst snd].
  revert Hacquire. unfold enclave_queue.acquire.
  destruct (enclave_queue.ready (pool w)) as [|h rest]; [done|].
  intros [= -> <-].
  unfold spec_HandleWorkOrderRequest, submit, enclave_queue.held.
  cbn [pool store enclave_queue.in_use].
  rewrite bool_decide_eq_true_2 by (apply elem_of_cons; by left).
  rewrite Hcompute.
  cbn [response_store.put world calls fst snd ThrowTCFError ret bind].
  unfold spec_GetSerializedResponse, fetch, enclave_queue.held,
    response_store.size_of, response_store.take.
  cbn [pool store enclave_queue.in_use response_store.staged
       response_store.next_identifier].
  rewrite bool_decide_eq_true_2 by (apply elem_of_cons; by left).
  rewrite lookup_insert_eq. cbn [fmap option_fmap option_map].
  rewrite decide_True by done. reflexivity.
Qed.

(** *** Concurrent callers of the wrapper *)

Lemma exclusive_initial w :
  enclave_queue.wf (pool w) → exclusive (initial w).
Proof. intros Hwf. by split_and!. Qed.

(** What it takes for one caller's move to keep the invariant. *)
Lemma exclusive_update (s : System World) t c q st :
  exclusive s →
  enclave_queue.wf q →
  (∀ t' h, t' ≠ t → holds (callers s t') = Some h →
           h ∈ enclave_queue.in_use q) →
  (∀ h, holds c = Some h →
        h ∈ enclave_queue.in_use q
        ∧ ∀ t', t' ≠ t → holds (callers s t') ≠ Some h) →
  exclusive (mkSystem (mkWorld q st) (<[t:=c]> (callers s))).
Proof.
  intros (Hwf & Hin & Hex) Hq Hothers Hc. split_and!; cbn.
  - done.
  - intros t' h. destruct (decide (t = t')) as [<-|Hne].
    + rewrite fn_lookup_insert. intros H. by apply Hc.
    + rewrite fn_lookup_insert_ne by done. apply Hothers. congruence.
  - intros t1 t2 h.
    destruct (decide (t = t1)) as [<-|Hne1], (decide (t = t2)) as [<-|Hne2];
      rewrite ?fn_lookup_insert, ?fn_lookup_insert_ne by done.
    + done.
    + intros H1 H2. destruct (Hc h H1) as [_ Hno].
      exfalso. apply (Hno t2); [congruence|done].
    + intros H1 H2. destruct (Hc h H2) as [_ Hno].
      exfalso. apply (Hno t1); [congruence|done].
    + apply Hex.
Qed.

(** A caller that keeps its enclave over a step that leaves the pool
    alone. *)
Lemma exclusive_keep (s : System World) t c st :
  exclusive s →
  holds c = holds (callers s t) →
  exclusive (mkSystem (mkWorld (pool (shared s)) st) (<[t:=c]> (callers s))).
Proof.
  intros Hinv Hc. pose proof Hinv as (Hwf & Hin & Hex).
  apply exclusive_update; [done|done|by eauto|].
  intros h Hh. rewrite Hc in Hh. split; [by eauto|].
  intros t' Hne Ht'. apply Hne. by eapply Hex.
Qed.

Lemma wf_acquire h rest used :
  enclave_queue.wf (enclave_queue.mkPool (h :: rest) used) →
  enclave_queue.wf (enclave_queue.mkPool rest (h :: used)) ∧ h ∉ used.
Proof.
  unfold enclave_queue.wf. cbn. intros Hnodup. split.
  - by rewrite <- Permutation_middle.
  - apply NoDup_cons in Hnodup as [Hnotin _].
    intros Hin. apply Hnotin, elem_of_app. by right.
Qed.

Lemma wf_release h free used :
  enclave_queue.wf (enclave_queue.mkPool free used) →
  h ∈ used →
  enclave_queue.wf
    (enclave_queue.mkPool (free ++ [h]) (filter (λ h', h' ≠ h) used)).
Proof.
  unfold enclave_queue.wf. cbn.
  intros (Hfree & Hdisjoint & Hused)%NoDup_app Hin.
  apply NoDup_app. split_and!.
  - apply NoDup_app. split_and!; [done| |apply NoDup_singleton].
    intros x Hx ->%list_elem_of_singleton. by apply (Hdisjoint h).
  - intros x [Hx| ->%list_elem_of_singleton]%elem_of_app
      [Hne Hx']%list_elem_of_filter; [by apply (Hdisjoint x)|done].
  - by apply NoDup_filter.
Qed.

Lemma filter_other_id (h : N) (l : list N) :
  h ∉ l → filter (λ h', h' ≠ h) l = l.
Proof.
  induction l as [|x l IH]; [done|].
  intros [Hne Hnotin]%not_elem_of_cons.
  rewrite filter_cons_True by done. by rewrite IH.
Qed.

(** Under these collaborators the destructor gives the enclave back: on
    every exit path the pool ends with the same enclaves in use as
    before the call and the same enclaves ready. *)
Lemma handle_work_order_restores_pool sealed_signup_data serialized_request
    w :
  enclave_queue.wf (pool w) →
  enclave_queue.in_use
    (pool (state_after env sealed_signup_data serialized_request w))
    = enclave_queue.in_use (pool w)
  ∧ enclave_queue.ready
      (pool (state_after env sealed_signup_data serialized_request w))
      ≡ₚ enclave_queue.ready (pool w).
Proof.
  intros Hwf.
  assert (∀ h rest used st,
            enclave_queue.wf (enclave_queue.mkPool (h :: rest) used) →
            pool (spec_destroy (mkReadyEnclave h)
                    (mkWorld (enclave_queue.mkPool rest (h :: used)) st))
            = enclave_queue.mkPool (rest ++ [h]) used) as Hdestroy.
  { intros h rest used st [_ Hfresh]%wf_acquire.
    unfold spec_destroy, enclave_queue.release. cbn.
    rewrite decide_True by (apply elem_of_cons; by left). cbn.
    rewrite decide_False by (intros Hne; by apply Hne).
    by rewrite filter_other_id. }
  unfold_wrapper.
  cbn [spec_collaborators base_GetReadyEnclave ReadyEnclave_destroy
       workorder_HandleWorkOrderRequest workorder_GetSerializedResponse].
  unfold spec_GetReadyEnclave, enclave_queue.acquire.
  destruct (pool w) as [free used] eqn:Hpool.
  cbn [enclave_queue.ready enclave_queue.in_use].
  destruct free as [|h rest]; cbn [world calls fst snd].
  { done. }
  unfold spec_HandleWorkOrderRequest.
  match goal with |- context [submit ?i ?a ?b ?w0] =>
    pose proof (submit_pool i a b w0) as Hp;
    destruct (submit i a b w0) as [[e|[id size]] [q st]]
  end; cbn in Hp; subst q; cbn [world calls fst snd ThrowTCFError throw ret].
  { rewrite Hdestroy by done. cbn. split; [done|].
    by rewrite <- Permutation_cons_append. }
  unfold spec_GetSerializedResponse.
  match goal with |- context [fetch ?i ?a ?b ?w0] =>
    pose proof (fetch_pool i a b w0) as Hp;
    destruct (fetch i a b w0) as [[e|response] [q st']]
  end; cbn in Hp; subst q; cbn [world calls fst snd ThrowTCFError throw ret];
    rewrite Hdestroy by done; cbn; (split; [done|]);
    by rewrite <- Permutation_cons_append.
Qed.

Lemma exclusive_step t input s :
  exclusive s → exclusive (system_step env t input s).
Proof.
  intros Hinv. pose proof Hinv as (Hwf & Hin & Hex).
  unfold system_step.
  destruct (callers s t) as [|sealed request re|sealed re id size|re r|r]
    eqn:Ht;
    cbn [caller_step spec_collaborators base_GetReadyEnclave
         ReadyEnclave_destroy workorder_HandleWorkOrderRequest
         workorder_GetSerializedResponse].
  1, 5:
    unfold spec_GetReadyEnclave, enclave_queue.acquire;
    destruct (pool (shared s)) as [free used] eqn:Hpool;
    cbn [enclave_queue.ready enclave_queue.in_use] in *;
    (destruct free as [|h rest];
     [ rewrite <- Hpool; apply exclusive_keep; [done|by rewrite Ht]
     | destruct (wf_acquire _ _ _ Hwf) as [Hwf' Hfresh];
       apply exclusive_update; [done|done| |];
       [ intros t' h' _ Hh'; apply elem_of_cons; right; by eapply Hin
       | intros h' [= <-]; split; [apply elem_of_cons; by left|];
         intros t' _ Hh'; apply Hfresh; by eapply Hin ] ]).
  - unfold spec_HandleWorkOrderRequest.
    pose proof (submit_pool re.(getIndex) sealed request (shared s)) as Hp.
    destruct (submit _ _ _ _) as [[e|[id size]] [q st]];
      cbn in Hp; subst q; apply exclusive_keep; by rewrite ?Ht.
  - unfold spec_GetSerializedResponse.
    pose proof (fetch_pool re.(getIndex) id size (shared s)) as Hp.
    destruct (fetch _ _ _ _) as [[e|response] [q st]];
      cbn in Hp; subst q; apply exclusive_keep; by rewrite ?Ht.
  - unfold spec_destroy, enclave_queue.release.
    assert (getIndex re ∈ enclave_queue.in_use (pool (shared s))) as Hheld
      by (apply (Hin t); by rewrite Ht).
    rewrite decide_True by done. cbn [snd].
    destruct (pool (shared s)) as [free used] eqn:Hpool.
    cbn [enclave_queue.ready enclave_queue.in_use] in *.
    apply exclusive_update; [done|by apply wf_release| |done].
    intros t' h' Hne Hh'. apply list_elem_of_filter. split; [|by eauto].
    intros ->. apply Hne. apply (Hex t' t (getIndex re)); [done|].
    by rewrite Ht.
Qed.

Lemma exclusive_reachable w s :
  enclave_queue.wf (pool w) → rtc (step env) (initial w) s → exclusive s.
Proof.
  intros Hwf. apply (rtc_ind_r (λ s, exclusive s)).
  - by apply exclusive_initial.
  - intros s1 s2 _ Hstep IH. destruct Hstep. by apply exclusive_step.
Qed.

Lemma schedule_reachable steps (s : System World) :
  rtc (step env) s (schedule env steps s).
Proof.
  revert s. induction steps as [|[t input] steps IH]; intros s; [done|].
  cbn. eapply rtc_l; [apply (step_caller env t input)|apply IH].
Qed.

(** C3. However the calls of the callers interleave, two different
    callers never hold the same enclave: in every state that can be
    reached from one where all callers are outside the wrapper, the
    enclaves held by two different callers are different. *)
Theorem no_two_callers_hold_one_enclave w s t1 t2 h1 h2 :
  enclave_queue.wf (pool w) →
  rtc (step env) (initial w) s →
  t1 ≠ t2 →
  holds (callers s t1) = Some h1 →
  holds (callers s t2) = Some h2 →
  h1 ≠ h2.
Proof.
  intros Hwf Hsteps Hne H1 H2 ->.
  destruct (exclusive_reachable w s Hwf Hsteps) as (_ & _ & Hex).
  by apply Hne, (Hex t1 t2 h2).
Qed.
End ProcessorFacts.

(** ** The wrapper, step by step *)

Section CallersFacts.
Context {W : Type} (env : Collaborators W).

(** A caller that runs alone goes through the wrapper as written: its
    steps end in the outcome and in the state of
    [HandleWorkOrderRequest]. *)
Lemma solo_caller_runs_the_wrapper sealed_signup_data serialized_request
    (w : W) :
  ∃ n,
    Nat.iter n
      (λ cw, caller_step env cw.1 (sealed_signup_data, serialized_request)
               cw.2)
      (Idle, w)
    = (Done (outcome_of env sealed_signup_data serialized_request w),
       state_after env sealed_signup_data serialized_request w).
Proof.
  unfold_wrapper. collaborator_cases env;
    first
      [ exists 1; cbn; rewrite Eacquire; reflexivity
      | exists 3; cbn; rewrite Eacquire; cbn; rewrite Esubmit; reflexivity
      | exists 4; cbn; rewrite Eacquire; cbn; rewrite Esubmit; cbn;
        rewrite Efetch; reflexivity ].
Qed.
End CallersFacts.

(** ** Runs against the stub enclave *)

Lemma first_error_propagates_witness :
  (outcome_of stub_env "seal" "req" (stub_world 0) = Throw PoolExhausted
   ∧ state_after stub_env "seal" "req" (stub_world 0) = stub_world 0
   ∧ calls_of stub_env "seal" "req" (stub_world 0) = [CallGetReadyEnclave])
  ∧ (outcome_of stub_env "seal" "" (stub_world 1)
       = Throw (ComputationError 7)
     ∧ state_after stub_env "seal" "" (stub_world 1)
         = ReadyEnclave_destroy stub_env (mkReadyEnclave 0)
             (snd (base_GetReadyEnclave stub_env (stub_world 1)))
     ∧ calls_of stub_env "seal" "" (stub_world 1)
         = [CallGetReadyEnclave;
            CallHandleWorkOrderRequest "seal" "" 0;
            CallDestroyReadyEnclave 0])
  ∧ (outcome_of evicting_env "seal" "req" (stub_world 1)
       = Throw UnknownResponse
     ∧ state_after evicting_env "seal" "req" (stub_world 1)
         = ReadyEnclave_destroy evicting_env (mkReadyEnclave 0)
             (snd (workorder_HandleWorkOrderRequest evicting_env "seal"
                     "req" 0
                     (snd (base_GetReadyEnclave evicting_env
                             (stub_world 1)))))
     ∧ calls_of evicting_env "seal" "req" (stub_world 1)
         = [CallGetReadyEnclave;
            CallHandleWorkOrderRequest "seal" "req" 0;
            CallGetSerializedResponse "seal" 0%N 3%N 0;
            CallDestroyReadyEnclave 0]).
Proof.
  split; [|split].
  - eapply (proj1 (first_error_propagates stub_env "seal" "req"
                     (stub_world 0))).
    reflexivity.
  - eapply (proj1 (proj2 (first_error_propagates stub_env "seal" ""
                            (stub_world 1)))
              (mkReadyEnclave 0)).
    + reflexivity.
    + reflexivity.
    + reflexivity.
  - eapply (proj2 (proj2 (first_error_propagates evicting_env "seal" "req"
                            (stub_world 1)))
              (mkReadyEnclave 0)).
    + reflexivity.
    + reflexivity.
    + reflexivity.
    + reflexivity.
Defined.

Lemma fetch_arguments_come_from_acquire_and_submit_witness :
  (outcome_of stub_env "seal" "req" (stub_world 2) = Return "req"
   ∧ state_after stub_env "seal" "req" (stub_world 2)
       = ReadyEnclave_destroy stub_env (mkReadyEnclave 0)
           (snd (workorder_GetSerializedResponse stub_env "seal" 0%N 3%N 0
                   (snd (workorder_HandleWorkOrderRequest stub_env "seal"
                           "req" 0
                           (snd (base_GetReadyEnclave stub_env
                                   (stub_world 2)))))))
   ∧ filter (λ c, is_fetch c = true)
       (calls_of stub_env "seal" "req" (stub_world 2))
     = [CallGetSerializedResponse "seal" 0%N 3%N 0])
  ∧ (state_after stub_env "seal" "" (stub_world 2)
       = ReadyEnclave_destroy stub_env (mkReadyEnclave 0)
           (snd (base_GetReadyEnclave stub_env (stub_world 2)))
     ∧ filter (λ c, is_fetch c = true)
         (calls_of stub_env "seal" "" (stub_world 2)) = [])
  ∧ ∃ readyEnclave w1 w2,
      base_GetReadyEnclave stub_env (stub_world 2) = (Return readyEnclave, w1)
      ∧ workorder_HandleWorkOrderRequest stub_env "seal" "req"
          (getIndex readyEnclave) w1
          = (Return (TCF_SUCCESS, 0%N, 3%N), w2)
      ∧ 0%N = getIndex readyEnclave.
Proof.
  split; [|split].
  - apply (proj1 (fetch_arguments_come_from_acquire_and_submit stub_env
                    "seal" "req" (stub_world 2))
             (mkReadyEnclave 0)
             (snd (base_GetReadyEnclave stub_env (stub_world 2)))
             0%N 3%N
             (snd (workorder_HandleWorkOrderRequest stub_env "seal" "req" 0
                     (snd (base_GetReadyEnclave stub_env (stub_world 2)))))).
    + reflexivity.
    + reflexivity.
  - apply (proj1 (proj2 (fetch_arguments_come_from_acquire_and_submit
                           stub_env "seal" "" (stub_world 2)))
             (mkReadyEnclave 0)
             (snd (base_GetReadyEnclave stub_env (stub_world 2)))
             (Return (TCF_ERR (ComputationError 7), 0%N, 0%N))
             (snd (base_GetReadyEnclave stub_env (stub_world 2)))
             (ComputationError 7)).
    + reflexivity.
    + reflexivity.
    + reflexivity.
  - apply (proj2 (proj2 (fetch_arguments_come_from_acquire_and_submit
                           stub_env "seal" "req" (stub_world 2)))
             "seal" 0%N 3%N 0%N).
    vm_compute. do 2 right. left.
Defined.

(** Against a fetch call that echoes its sealed signup data, the caller
    gets back the sealed signup data it passed in. *)
Lemma fetch_receives_the_sealed_signup_data_witness :
  (outcome_of echo_env "seal" "req" (stub_world 2) = Return "seal"
   ∧ state_after echo_env "seal" "req" (stub_world 2)
       = ReadyEnclave_destroy echo_env (mkReadyEnclave 0)
           (snd (workorder_HandleWorkOrderRequest echo_env "seal" "req" 0
                   (snd (base_GetReadyEnclave echo_env (stub_world 2))))))
  ∧ ("seal" = "seal"
     ∧ calls_of stub_env "seal" "req" (stub_world 2)
         = [CallGetReadyEnclave;
            CallHandleWorkOrderRequest "seal" "req" 0;
            CallGetSerializedResponse "seal" 0%N 3%N 0;
            CallDestroyReadyEnclave 0]).
Proof.
  split.
  - apply (proj1 (fetch_receives_the_sealed_signup_data echo_env "seal"
                    "req" (stub_world 2))
             (mkReadyEnclave 0)
             (snd (base_GetReadyEnclave echo_env (stub_world 2)))
             0%N 3%N
             (snd (workorder_HandleWorkOrderRequest echo_env "seal" "req" 0
                     (snd (base_GetReadyEnclave echo_env (stub_world 2)))))
             (Return (TCF_SUCCESS, "seal"))).
    + reflexivity.
    + reflexivity.
    + reflexivity.
  - apply (proj2 (fetch_receives_the_sealed_signup_data stub_env "seal"
                    "req" (stub_world 2))
             "seal" 0%N 3%N 0%N).
    vm_compute. do 2 right. left.
Defined.

Lemma failed_submit_is_atomic_witness :
  outcome_of stub_env "seal" "" (stub_world 2) = Throw (ComputationError 7)
  ∧ (0%N ∈ enclave_queue.ready
             (pool (state_after stub_env "seal" "" (stub_world 2))))
  ∧ (0%N ∉ enclave_queue.in_use
             (pool (state_after stub_env "seal" "" (stub_world 2))))
  ∧ store (state_after stub_env "seal" "" (stub_world 2))
      = store (stub_world 2)
  ∧ calls_of stub_env "seal" "" (stub_world 2)
      = [CallGetReadyEnclave;
         CallHandleWorkOrderRequest "seal" "" 0;
         CallDestroyReadyEnclave 0].
Proof.
  eapply (failed_submit_is_atomic stub_computation stub_encode "seal" ""
            (stub_world 2) 0%N).
  - reflexivity.
  - reflexivity.
Defined.

(** A world in which enclave 0 is held and one response, of three bytes,
    is staged under identifier 0. *)
Lemma size_mismatch_releases_nothing_witness :
  let w := perform stub_computation stub_encode DoAcquire (stub_world 2) in
  let w1 := snd (submit stub_computation 0 "seal" "req" w) in
  fetch stub_encode 0 0 4 w1 = (inl SizeMismatch, w1).
Proof.
  intros w w1.
  apply (size_mismatch_releases_nothing stub_computation stub_encode
           w 0%N "seal" "req" 0%N 3%N w1 [] 0%N 4%N).
  - apply wf_empty.
  - reflexivity.
  - eexists. reflexivity.
  - reflexivity.
  - discriminate.
Defined.

Lemma response_is_taken_at_most_once_witness :
  let s := snd (response_store.put [Byte.x01] response_store.empty) in
  let ops := [response_store.OpPut [Byte.x02]; response_store.OpTake 1%N] in
  let w :=
    perform_all stub_computation stub_encode
      [DoAcquire; DoSubmit 0 "seal" "req"] (stub_world 2) in
  let later :=
    perform_all stub_computation stub_encode [DoSubmit 0 "seal" "next"]
      (snd (fetch stub_encode 0 0 3 w)) in
  fst (response_store.take 0
         (response_store.run ops (snd (response_store.take 0 s))))
    = inl UnknownResponse
  ∧ fst (response_store.take 5 s) = inl UnknownResponse
  ∧ fst (fetch stub_encode 0 0 3 later) = inl UnknownResponse
  ∧ fst (fetch stub_encode 0 9 3 w) = inl UnknownResponse.
Proof.
  intros s ops w later.
  pose proof (response_is_taken_at_most_once stub_computation stub_encode)
    as (Htake & Hnever & Hfetch & Hfetch_never).
  split; [|split; [|split]].
  - rewrite (Htake s 0%N [Byte.x01] (snd (response_store.take 0 s)) ops).
    + reflexivity.
    + apply (wf_apply (response_store.OpPut [Byte.x01])), wf_empty.
    + reflexivity.
  - rewrite (Hnever s 5%N); reflexivity.
  - unfold later.
    rewrite (Hfetch w 0%N 0%N 3%N "req" (snd (fetch stub_encode 0 0 3 w))
               [DoSubmit 0 "seal" "next"] 0%N 3%N).
    + reflexivity.
    + apply (wf_apply (response_store.OpPut _)), wf_empty.
    + reflexivity.
    + reflexivity.
  - rewrite (Hfetch_never w 0%N 9%N 3%N); reflexivity.
Defined.

Lemma no_two_callers_hold_one_enclave_witness :
  let s :=
    schedule stub_env [(0, ("seal", "a")); (1, ("seal", "b"))]
      (initial (stub_world 2)) in
  holds (callers s 0) = Some 0%N
  ∧ holds (callers s 1) = Some 1%N
  ∧ 0%N ≠ 1%N.
Proof.
  intros s. split; [reflexivity|]. split; [reflexivity|].
  apply (no_two_callers_hold_one_enclave stub_computation stub_encode
           (stub_world 2) s 0 1 0%N 1%N).
  - unfold enclave_queue.wf. cbn.
    apply NoDup_cons. split; [|apply NoDup_singleton].
    intros H%list_elem_of_singleton. discriminate.
  - apply schedule_reachable.
  - discriminate.
  - reflexivity.
  - reflexivity.
Defined.

(** ** More on the wrapper, for arbitrary collaborators *)

Section WrapperRuns.
Context {W : Type} (env : Collaborators W).
Implicit Types (w : W) (sealed_signup_data serialized_request : string).

(** X1. When the three operations succeed in turn, each on the state the
    one before left, the caller gets the string the fetch call wrote, as
    it is; the four calls are made in the order acquire, submit, fetch,
    destroy, and the destructor runs on the state the fetch call left. *)
Theorem response_is_what_fetch_wrote
    sealed_signup_data serialized_request w readyEnclave w1 id size w2
    response w3 :
  base_GetReadyEnclave env w = (Return readyEnclave, w1) →
  workorder_HandleWorkOrderRequest env sealed_signup_data serialized_request
    (getIndex readyEnclave) w1 = (Return (TCF_SUCCESS, id, size), w2) →
  workorder_GetSerializedResponse env sealed_signup_data id size
    (getIndex readyEnclave) w2 = (Return (TCF_SUCCESS, response), w3) →
  outcome_of env sealed_signup_data serialized_request w = Return response
  ∧ state_after env sealed_signup_data serialized_request w
      = ReadyEnclave_destroy env readyEnclave w3
  ∧ calls_of env sealed_signup_data serialized_request w
      = [CallGetReadyEnclave;
         CallHandleWorkOrderRequest sealed_signup_data serialized_request
           (getIndex readyEnclave);
         CallGetSerializedResponse sealed_signup_data id size
           (getIndex readyEnclave);
         CallDestroyReadyEnclave (getIndex readyEnclave)].
Proof.
  intros Hacquire Hsubmit Hfetch. unfold_wrapper.
  rewrite Hacquire. cbn [world calls]. rewrite Hsubmit.
  cbn [world calls ThrowTCFError ret]. rewrite Hfetch. done.
Qed.

(** X2. A response is returned only after a full run: whenever the caller
    gets a string, the acquisition succeeded, the submit call reported
    success, and the fetch call reported success and wrote that very
    string. *)
Theorem returned_response_stems_from_fetch
    sealed_signup_data serialized_request w response :
  outcome_of env sealed_signup_data serialized_request w = Return response →
  ∃ readyEnclave w1 id size w2 w3,
    base_GetReadyEnclave env w = (Return readyEnclave, w1)
    ∧ workorder_HandleWorkOrderRequest env sealed_signup_data
        serialized_request (getIndex readyEnclave) w1
        = (Return (TCF_SUCCESS, id, size), w2)
    ∧ workorder_GetSerializedResponse env sealed_signup_data id size
        (getIndex readyEnclave) w2
        = (Return (TCF_SUCCESS, response), w3).
Proof.
  unfold_wrapper. collaborator_cases env; try discriminate.
  intros [= <-]. eauto 10.
Qed.

(** X3. The wrapper raises no error of its own: an error that reaches the
    caller is the error of the acquisition, of the submit call or of the
    fetch call, each of the later two having been reached only because
    the operations before it succeeded. *)
Theorem thrown_error_stems_from_an_operation
    sealed_signup_data serialized_request w e :
  outcome_of env sealed_signup_data serialized_request w = Throw e →
  (∃ w1, base_GetReadyEnclave env w = (Throw e, w1))
  ∨ (∃ readyEnclave w1 r w2,
       base_GetReadyEnclave env w = (Return readyEnclave, w1)
       ∧ workorder_HandleWorkOrderRequest env sealed_signup_data
           serialized_request (getIndex readyEnclave) w1 = (r, w2)
       ∧ failed_with (λ x, x.1.1) r e)
  ∨ (∃ readyEnclave w1 id size w2 r w3,
       base_GetReadyEnclave env w = (Return readyEnclave, w1)
       ∧ workorder_HandleWorkOrderRequest env sealed_signup_data
           serialized_request (getIndex readyEnclave) w1
           = (Return (TCF_SUCCESS, id, size), w2)
       ∧ workorder_GetSerializedResponse env sealed_signup_data id size
           (getIndex readyEnclave) w2 = (r, w3)
       ∧ failed_with fst r e).
Proof.
  unfold_wrapper. collaborator_cases env; try discriminate; intros [= <-].
  - do 2 right. eexists _, _, _, _, _, _, _. by split_and!.
  - do 2 right. eexists _, _, _, _, _, _, _. by split_and!.
  - right. left. eexists _, _, _, _. by split_and!.
  - right. left. eexists _, _, _, _. by split_and!.
  - left. eauto.
Qed.

(** X4. One run works on one enclave: the submit collaborator, the fetch
    collaborator and the destructor are all run on the enclave that
    [GetReadyEnclave] returned in this run (the two calls on its index,
    the destructor on the object), and every call in the log that names
    an enclave names that index. *)
Theorem every_call_names_the_acquired_enclave
    sealed_signup_data serialized_request w readyEnclave w1 :
  base_GetReadyEnclave env w = (Return readyEnclave, w1) →
  match workorder_HandleWorkOrderRequest env sealed_signup_data
          serialized_request (getIndex readyEnclave) w1 with
  | (Return (TCF_SUCCESS, id, size), w2) =>
      outcome_of env sealed_signup_data serialized_request w
        = delivered (workorder_GetSerializedResponse env sealed_signup_data
                       id size (getIndex readyEnclave) w2).1
      ∧ state_after env sealed_signup_data serialized_request w
        = ReadyEnclave_destroy env readyEnclave
            (workorder_GetSerializedResponse env sealed_signup_data id size
               (getIndex readyEnclave) w2).2
  | (Return (TCF_ERR e, _, _), w2) | (Throw e, w2) =>
      outcome_of env sealed_signup_data serialized_request w = Throw e
      ∧ state_after env sealed_signup_data serialized_request w
        = ReadyEnclave_destroy env readyEnclave w2
  end
  ∧ ∀ c index,
      c ∈ calls_of env sealed_signup_data serialized_request w →
      enclave_of c = Some index →
      index = getIndex readyEnclave.
Proof.
  intros Hacquire. split.
  - unfold_wrapper. rewrite Hacquire. cbn [world calls].
    collaborator_cases env; done.
  - intros c index. unfold_wrapper. rewrite Hacquire. cbn [world calls].
    collaborator_cases env; cbn [app]; intros Hin Hc;
      repeat (apply elem_of_cons in Hin as [->|Hin]; try discriminate);
      try (by apply elem_of_nil in Hin);
      by injection Hc as <-.
Qed.

(** X5. The serialized request matters to the submit call only: two
    requests that the submit call answers alike, on the enclave acquired,
    give the caller the same outcome and leave the same state. *)
Theorem request_matters_to_submit_only
    sealed_signup_data serialized_request serialized_request' w :
  (∀ readyEnclave w1,
     base_GetReadyEnclave env w = (Return readyEnclave, w1) →
     workorder_HandleWorkOrderRequest env sealed_signup_data
       serialized_request (getIndex readyEnclave) w1
     = workorder_HandleWorkOrderRequest env sealed_signup_data
         serialized_request' (getIndex readyEnclave) w1) →
  outcome_of env sealed_signup_data serialized_request w
    = outcome_of env sealed_signup_data serialized_request' w
  ∧ state_after env sealed_signup_data serialized_request w
    = state_after env sealed_signup_data serialized_request' w.
Proof.
  intros Hsame. unfold_wrapper.
  destruct (base_GetReadyEnclave env w) as [[readyEnclave|e] w1] eqn:Eacquire;
    cbn [world calls fst snd]; [|done].
  rewrite <- (Hsame readyEnclave w1 eq_refl).
  collaborator_cases env; done.
Qed.

(** X6. The wrapper is at most four calls long, and it is these calls
    and nothing more: a caller that makes them one at a time (acquire;
    submit; fetch; scope exit) and runs alone reaches the outcome and the
    state of [HandleWorkOrderRequest] in as many steps as the run makes
    calls. *)
Theorem wrapper_is_its_calls sealed_signup_data serialized_request w :
  (length (calls_of env sealed_signup_data serialized_request w) ≤ 4)%nat
  ∧ Nat.iter (length (calls_of env sealed_signup_data serialized_request w))
      (λ cw, caller_step env cw.1 (sealed_signup_data, serialized_request)
               cw.2)
      (Idle, w)
    = (Done (outcome_of env sealed_signup_data serialized_request w),
       state_after env sealed_signup_data serialized_request w).
Proof.
  unfold_wrapper. collaborator_cases env; cbn [app length]; (split; [lia|]);
    cbn; rewrite Eacquire; cbn; rewrite ?Esubmit; cbn; rewrite ?Efetch;
    reflexivity.
Qed.
End WrapperRuns.

(** ** More runs against the stub enclave *)

Lemma response_is_what_fetch_wrote_witness :
  outcome_of stub_env "seal" "req" (stub_world 2) = Return "req"
  ∧ state_after stub_env "seal" "req" (stub_world 2)
      = ReadyEnclave_destroy stub_env (mkReadyEnclave 0)
          (snd (workorder_GetSerializedResponse stub_env "seal" 0%N 3%N 0
                  (snd (workorder_HandleWorkOrderRequest stub_env "seal"
                          "req" 0
                          (snd (base_GetReadyEnclave stub_env
                                  (stub_world 2)))))))
  ∧ calls_of stub_env "seal" "req" (stub_world 2)
      = [CallGetReadyEnclave;
         CallHandleWorkOrderRequest "seal" "req" 0;
         CallGetSerializedResponse "seal" 0%N 3%N 0;
         CallDestroyReadyEnclave 0].
Proof.
  eapply (response_is_what_fetch_wrote stub_env "seal" "req" (stub_world 2)
            (mkReadyEnclave 0)).
  - reflexivity.
  - reflexivity.
  - reflexivity.
Defined.

Lemma returned_response_stems_from_fetch_witness :
  ∃ readyEnclave w1 id size w2 w3,
    base_GetReadyEnclave stub_env (stub_world 2) = (Return readyEnclave, w1)
    ∧ workorder_HandleWorkOrderRequest stub_env "seal" "req"
        (getIndex readyEnclave) w1
        = (Return (TCF_SUCCESS, id, size), w2)
    ∧ workorder_GetSerializedResponse stub_env "seal" id size
        (getIndex readyEnclave) w2
        = (Return (TCF_SUCCESS, "req"), w3).
Proof.
  apply (returned_response_stems_from_fetch stub_env "seal" "req"
           (stub_world 2) "req").
  reflexivity.
Defined.

Lemma thrown_error_stems_from_an_operation_witness :
  (∃ w1, base_GetReadyEnclave stub_env (stub_world 1)
           = (Throw (ComputationError 7), w1))
  ∨ (∃ readyEnclave w1 r w2,
       base_GetReadyEnclave stub_env (stub_world 1) = (Return readyEnclave, w1)
       ∧ workorder_HandleWorkOrderRequest stub_env "seal" ""
           (getIndex readyEnclave) w1 = (r, w2)
       ∧ failed_with (λ x, x.1.1) r (ComputationError 7))
  ∨ (∃ readyEnclave w1 id size w2 r w3,
       base_GetReadyEnclave stub_env (stub_world 1) = (Return readyEnclave, w1)
       ∧ workorder_HandleWorkOrderRequest stub_env "seal" ""
           (getIndex readyEnclave) w1
           = (Return (TCF_SUCCESS, id, size), w2)
       ∧ workorder_GetSerializedResponse stub_env "seal" id size
           (getIndex readyEnclave) w2 = (r, w3)
       ∧ failed_with fst r (ComputationError 7)).
Proof.
  apply (thrown_error_stems_from_an_operation stub_env "seal" ""
           (stub_world 1) (ComputationError 7)).
  reflexivity.
Defined.

Lemma every_call_names_the_acquired_enclave_witness :
  (outcome_of stub_env "seal" "req" (stub_world 2) = Return "req"
   ∧ state_after stub_env "seal" "req" (stub_world 2)
       = ReadyEnclave_destroy stub_env (mkReadyEnclave 0)
           (snd (workorder_GetSerializedResponse stub_env "seal" 0%N 3%N 0
                   (snd (workorder_HandleWorkOrderRequest stub_env "seal"
                           "req" 0
                           (snd (base_GetReadyEnclave stub_env
                                   (stub_world 2))))))))
  ∧ ∀ c index,
      c ∈ calls_of stub_env "seal" "req" (stub_world 2) →
      enclave_of c = Some index →
      index = 0%N.
Proof.
  exact (every_call_names_the_acquired_enclave stub_env "seal" "req"
           (stub_world 2) (mkReadyEnclave 0)
           (snd (base_GetReadyEnclave stub_env (stub_world 2)))
           eq_refl).
Defined.

Lemma request_matters_to_submit_only_witness :
  outcome_of constant_env "seal" "a" (stub_world 1)
    = outcome_of constant_env "seal" "b" (stub_world 1)
  ∧ state_after constant_env "seal" "a" (stub_world 1)
    = state_after constant_env "seal" "b" (stub_world 1).
Proof.
  apply (request_matters_to_submit_only constant_env "seal" "a" "b"
           (stub_world 1)).
  intros readyEnclave w1 _. reflexivity.
Defined.
